(** * Mergington High School activities API (src/app.py)

    A shallow embedding of the request handlers of [app.py] over an explicit
    model of the [activity] table, and the properties of signup, unregister,
    seeding and listing that follow from the code. *)

From stdpp Require Import gmap strings list fin_maps.

Local Open Scope string_scope.
Local Open Scope list_scope.

(** ** The [Activity] model (class Activity(SQLModel, table=True))

    [participants] has its declared type, a list of strings, which is what
    every row written by the application holds; a row whose JSON column is
    NULL is not represented. *)

Record Activity := mkActivity {
  id : option Z;                  (* Optional[int], primary key *)
  name : string;                  (* str, indexed, not nullable *)
  description : option string;    (* Optional[str] *)
  schedule : option string;       (* Optional[str] *)
  max_participants : option Z;    (* Optional[int] *)
  participants : list string      (* List[str], JSON column *)
}.

#[global] Instance Activity_eq_dec : EqDecision Activity.
Proof. solve_decision. Defined.

(** [activity.participants = ps] *)
Definition set_participants (ps : list string) (a : Activity) : Activity :=
  mkActivity (id a) (name a) (description a) (schedule a) (max_participants a) ps.

(** The primary key the table assigns to a row when it is inserted. *)
Definition set_id (k : Z) (a : Activity) : Activity :=
  mkActivity (Some k) (name a) (description a) (schedule a)
             (max_participants a) (participants a).

(** The table: its rows in rowid order, which is the order in which SQLite
    scans them for [select(Activity)]. *)
Abbreviation table := (list Activity).

(** ** The Python list operations the handlers use *)

(** [x in l] *)
Definition py_in (x : string) (l : list string) : bool := bool_decide (x ∈ l).

(** [list(l or [])]: a copy of [l], the empty list being falsy. *)
Definition py_list_or_empty (l : list string) : list string :=
  match l with
  | [] => []
  | _ :: _ => l
  end.

(** [l.append(x)] *)
Definition py_append (l : list string) (x : string) : list string := l ++ [x].

(** [l.remove(x)]: drops the first element equal to [x]; [None] stands for
    the ValueError that Python raises when there is none. *)
Fixpoint py_remove (x : string) (l : list string) : option (list string) :=
  match l with
  | [] => None
  | y :: l' =>
      if decide (x = y) then Some l'
      else match py_remove x l' with
           | Some r => Some (y :: r)
           | None => None
           end
  end.

(** ** The session operations *)

(** [session.exec(select(Activity))] *)
Definition select_all (st : table) : list Activity := st.

(** [session.exec(select(Activity).where(Activity.name == n))] *)
Definition select_where_name (n : string) (st : table) : list Activity :=
  filter (λ a, name a = n) st.

(** [result.first()] *)
Definition first (rows : list Activity) : option Activity := head rows.

(** The largest rowid in use, 0 for an empty table. *)
Definition max_rowid (st : table) : Z := foldr Z.max 0%Z (omap id st).

(** [session.add(a)] for a new object, flushed at commit: the row is
    inserted after the existing ones under the next rowid. *)
Definition session_add_new (st : table) (a : Activity) : table :=
  st ++ [set_id (max_rowid st + 1) a].

(** [WHERE activity.id = ?]: a NULL key matches nothing. *)
Definition same_key (r a : Activity) : bool :=
  match id r, id a with
  | Some i, Some j => bool_decide (i = j)
  | _, _ => false
  end.

(** [session.add(a); session.commit()] for an object loaded from the table
    whose [participants] was reassigned: the UPDATE writes that column to the
    row with the object's primary key. *)
Definition session_commit (a : Activity) (st : table) : table :=
  (λ r, if same_key r a then set_participants (participants a) r else r) <$> st.

(** ** Seeding (init_db) *)

Definition chess_club : Activity :=
  mkActivity None "Chess Club"
    (Some "Learn strategies and compete in chess tournaments")
    (Some "Fridays, 3:30 PM - 5:00 PM") (Some 12%Z)
    ["michael@mergington.edu"; "daniel@mergington.edu"].

Definition programming_class : Activity :=
  mkActivity None "Programming Class"
    (Some "Learn programming fundamentals and build software projects")
    (Some "Tuesdays and Thursdays, 3:30 PM - 4:30 PM") (Some 20%Z)
    ["emma@mergington.edu"; "sophia@mergington.edu"].

Definition gym_class : Activity :=
  mkActivity None "Gym Class"
    (Some "Physical education and sports activities")
    (Some "Mondays, Wednesdays, Fridays, 2:00 PM - 3:00 PM") (Some 30%Z)
    ["john@mergington.edu"; "olivia@mergington.edu"].

Definition seed : list Activity := [chess_club; programming_class; gym_class].

Definition init_db (st : table) : table :=
  let any_activity := first (select_all st) in
  match any_activity with
  | None => foldl session_add_new st seed
  | Some _ => st
  end.

(** ** Responses *)

Inductive response :=
  | Return (message : string)                          (* 200, {"message": ...} *)
  | HTTPException (status_code : Z) (detail : string)
  | Uncaught (exception : string).                     (* any other exception *)

#[global] Instance response_eq_dec : EqDecision response.
Proof. solve_decision. Defined.

(** ** POST /activities/{activity_name}/signup *)

Definition signup_for_activity (activity_name email : string) (st : table)
  : table * response :=
  match first (select_where_name activity_name st) with
  | None => (st, HTTPException 404 "Activity not found")
  | Some activity =>
      if py_in email (participants activity)
      then (st, HTTPException 400 "Student is already signed up")
      else
        let participants := py_list_or_empty (participants activity) in
        let participants := py_append participants email in
        let activity := set_participants participants activity in
        (session_commit activity st,
         Return ("Signed up " +:+ email +:+ " for " +:+ activity_name))
  end.

(** ** DELETE /activities/{activity_name}/unregister *)

Definition unregister_from_activity (activity_name email : string) (st : table)
  : table * response :=
  match first (select_where_name activity_name st) with
  | None => (st, HTTPException 404 "Activity not found")
  | Some activity =>
      let participants := py_list_or_empty (participants activity) in
      if negb (py_in email participants)
      then (st, HTTPException 400 "Student is not signed up for this activity")
      else
        match py_remove email participants with
        | None => (st, Uncaught "ValueError")
        | Some participants =>
            let activity := set_participants participants activity in
            (session_commit activity st,
             Return ("Unregistered " +:+ email +:+ " from " +:+ activity_name))
        end
  end.

(** ** GET /activities *)

(** The value stored under each activity name. *)
Record details := mkDetails {
  d_description : option string;
  d_schedule : option string;
  d_max_participants : option Z;
  d_participants : list string
}.

Definition details_of (a : Activity) : details :=
  mkDetails (description a) (schedule a) (max_participants a) (participants a).

(** The dict comprehension [{a.name: {...} for a in activities}]: a later
    row overwrites the entry of an earlier row of the same name. *)
Definition get_activities (st : table) : gmap string details :=
  foldl (λ m a, <[name a := details_of a]> m) ∅ (select_all st).

(** ** Runs of the application *)

Inductive request :=
  | Startup
  | GetActivities
  | PostSignup (activity_name email : string)
  | DeleteUnregister (activity_name email : string).

Definition serve (st : table) (r : request) : table :=
  match r with
  | Startup => init_db st
  | GetActivities => st
  | PostSignup n e => (signup_for_activity n e st).1
  | DeleteUnregister n e => (unregister_from_activity n e st).1
  end.

Definition run (reqs : list request) : table := foldl serve [] reqs.

(** The tables the application can hold, starting from an empty one. *)
Definition Reachable (st : table) : Prop := ∃ reqs, run reqs = st.

(** ** Invariants of the table *)

(** Every row has a key, keys are unique (primary key), names are unique. *)
Definition store_ok (st : table) : Prop :=
  Forall (λ r, is_Some (id r)) st ∧ NoDup (id <$> st) ∧ NoDup (name <$> st).

#[global] Instance store_ok_dec st : Decision (store_ok st).
Proof. unfold store_ok. apply _. Defined.

(** No email twice in one activity. *)
Definition no_duplicates (st : table) : Prop :=
  Forall (λ r, NoDup (participants r)) st.

(** The invariant kept along a run. *)
Definition table_inv (st : table) : Prop := store_ok st ∧ no_duplicates st.

(** The table after the first startup. *)
Definition seeded : table := init_db [].


(** A Chess Club (capacity 12) filled up to twelve participants. *)
Definition chess_signups : list request :=
  Startup :: (PostSignup "Chess Club" <$>
    ["s03@mergington.edu"; "s04@mergington.edu"; "s05@mergington.edu";
     "s06@mergington.edu"; "s07@mergington.edu"; "s08@mergington.edu";
     "s09@mergington.edu"; "s10@mergington.edu"; "s11@mergington.edu";
     "s12@mergington.edu"]).

Definition full_chess_club : table := Eval vm_compute in run chess_signups.


(** ** Notions for the properties of runs *)

(** The columns of a row that no handler writes: the row with its
    participants blanked. *)
Definition fixed_columns (a : Activity) : Activity := set_participants [] a.

(** The activity name a request carries. *)
Definition target (r : request) : option string :=
  match r with
  | PostSignup n _ | DeleteUnregister n _ => Some n
  | Startup | GetActivities => None
  end.

(** The participants a request writes to the row [a] it has loaded, when it
    gets past its membership test. *)
Definition new_participants (r : request) (a : Activity) : option (list string) :=
  match r with
  | PostSignup _ e =>
      if py_in e (participants a) then None
      else Some (py_append (py_list_or_empty (participants a)) e)
  | DeleteUnregister _ e =>
      if negb (py_in e (py_list_or_empty (participants a))) then None
      else py_remove e (py_list_or_empty (participants a))
  | Startup | GetActivities => None
  end.

(** * Properties *)

(** Closed side conditions are decided by evaluation. *)
Ltac by_evaluation := apply (bool_decide_unpack _); vm_compute; exact I.

(** ** Python list operations *)

Lemma py_in_true x l : py_in x l = true ↔ x ∈ l.
Proof. unfold py_in. by rewrite bool_decide_eq_true. Qed.

Lemma py_in_false x l : py_in x l = false ↔ x ∉ l.
Proof. unfold py_in. by rewrite bool_decide_eq_false. Qed.

Lemma py_list_or_empty_id l : py_list_or_empty l = l.
Proof. by destruct l. Qed.

(** [remove] splits the list at the first occurrence. *)
Lemma py_remove_elem x l :
  x ∈ l →
  ∃ l1 l2, l = l1 ++ x :: l2 ∧ (x ∉ l1) ∧ py_remove x l = Some (l1 ++ l2).
Proof.
  induction l as [|y l IH]; intros Hin.
  - by apply elem_of_nil in Hin.
  - simpl. destruct (decide (x = y)) as [->|Hne].
    + exists [], l. split_and!; [done | apply not_elem_of_nil | done].
    + apply elem_of_cons in Hin as [?|Hin]; [done|].
      destruct (IH Hin) as (l1 & l2 & -> & Hl1 & ->).
      exists (y :: l1), l2. split_and!; [done | | done].
      rewrite not_elem_of_cons. done.
Qed.

Lemma py_remove_not_elem x l : x ∉ l → py_remove x l = None.
Proof.
  induction l as [|y l IH]; [done|].
  rewrite not_elem_of_cons. intros [Hne Hl]. simpl.
  rewrite decide_False by done. by rewrite IH.
Qed.

(** ** Record updates *)

Lemma set_participants_same a : set_participants (participants a) a = a.
Proof. by destruct a. Qed.

Lemma set_participants_twice ps qs a :
  set_participants ps (set_participants qs a) = set_participants ps a.
Proof. done. Qed.

(** ** Lookup by name *)

Lemma first_select_elem n st a :
  first (select_where_name n st) = Some a → a ∈ st ∧ name a = n.
Proof.
  unfold first, select_where_name. intros H.
  apply head_Some_elem_of in H. by apply list_elem_of_filter in H as [? ?].
Qed.

Lemma first_select_None n st :
  n ∉ name <$> st → first (select_where_name n st) = None.
Proof.
  intros Hn. destruct (first (select_where_name n st)) as [a|] eqn:E; [|done].
  apply first_select_elem in E as [Ha <-].
  exfalso. apply Hn. by apply list_elem_of_fmap_2.
Qed.

(** With unique names the lookup finds the stored activity itself. *)
Lemma first_select_unique st a :
  NoDup (name <$> st) → a ∈ st →
  first (select_where_name (name a) st) = Some a.
Proof.
  unfold first, select_where_name.
  induction st as [|r st IH]; intros Hnd Hin.
  - by apply elem_of_nil in Hin.
  - rewrite fmap_cons in Hnd. apply NoDup_cons in Hnd as [Hr Hnd].
    rewrite filter_cons. destruct (decide (name r = name a)) as [Heq|Hne].
    + simpl. f_equal.
      apply elem_of_cons in Hin as [->|Hin]; [done|].
      exfalso. apply Hr. rewrite Heq. by apply list_elem_of_fmap_2.
    + apply elem_of_cons in Hin as [->|Hin]; [done|]. by apply IH.
Qed.

(** ** The UPDATE issued at commit *)

Lemma same_key_spec r a :
  same_key r a = true ↔ ∃ k, id r = Some k ∧ id a = Some k.
Proof.
  unfold same_key. destruct (id r) as [i|], (id a) as [j|]; simpl.
  - rewrite bool_decide_eq_true. split; [intros ->; eauto|].
    intros (k & ? & ?). congruence.
  - split; [done | intros (k & ? & ?); done].
  - split; [done | intros (k & ? & ?); done].
  - split; [done | intros (k & ? & ?); done].
Qed.

Lemma session_commit_length a st : length (session_commit a st) = length st.
Proof. unfold session_commit. by rewrite length_fmap. Qed.

Lemma session_commit_lookup a st i :
  session_commit a st !! i =
  (λ r, if same_key r a then set_participants (participants a) r else r) <$> st !! i.
Proof. unfold session_commit. by rewrite list_lookup_fmap. Qed.

Lemma session_commit_ids a st : id <$> session_commit a st = id <$> st.
Proof.
  unfold session_commit. rewrite <- list_fmap_compose.
  apply list_fmap_ext. intros i r _. simpl. by destruct (same_key r a).
Qed.

Lemma session_commit_names a st : name <$> session_commit a st = name <$> st.
Proof.
  unfold session_commit. rewrite <- list_fmap_compose.
  apply list_fmap_ext. intros i r _. simpl. by destruct (same_key r a).
Qed.

(** In a table with a primary key the UPDATE rewrites the one row the
    object was loaded from. *)
Lemma session_commit_insert_keys (st : table) (i : nat) (a : Activity)
    (ps : list string) :
  Forall (λ r, is_Some (id r)) st → NoDup (id <$> st) → st !! i = Some a →
  session_commit (set_participants ps a) st = <[i := set_participants ps a]> st.
Proof.
  intros Hkeys Hids Hi. apply list_eq. intros j.
  rewrite session_commit_lookup.
  destruct (decide (i = j)) as [<-|Hne].
  - rewrite list_lookup_insert_eq by (by eapply lookup_lt_Some).
    rewrite Hi. simpl.
    destruct (proj1 (Forall_lookup _ _) Hkeys i a Hi) as [k Hk].
    replace (same_key a (set_participants ps a)) with true; [done|].
    symmetry. apply same_key_spec. eauto.
  - rewrite list_lookup_insert_ne by done.
    destruct (st !! j) as [r|] eqn:Hj; [|done]. simpl.
    destruct (same_key r (set_participants ps a)) eqn:Hk; [|done].
    apply same_key_spec in Hk as (k & Hr & Ha). simpl in Ha.
    exfalso. apply Hne.
    eapply (NoDup_lookup (id <$> st) i j (Some k)); [done| |].
    + by rewrite list_lookup_fmap, Hi; simpl; rewrite Ha.
    + by rewrite list_lookup_fmap, Hj; simpl; rewrite Hr.
Qed.

Lemma session_commit_insert st i a ps :
  store_ok st → st !! i = Some a →
  session_commit (set_participants ps a) st = <[i := set_participants ps a]> st.
Proof.
  intros (Hkeys & Hids & _) Hi. by apply session_commit_insert_keys.
Qed.

Lemma session_commit_ok a st : store_ok st → store_ok (session_commit a st).
Proof.
  intros (Hkeys & Hids & Hnames). split_and!.
  - unfold session_commit. rewrite Forall_fmap.
    eapply Forall_impl; [exact Hkeys|]. intros r Hr. simpl.
    by destruct (same_key r a).
  - by rewrite session_commit_ids.
  - by rewrite session_commit_names.
Qed.

Lemma store_ok_insert st i a ps :
  store_ok st → st !! i = Some a → store_ok (<[i := set_participants ps a]> st).
Proof.
  intros Hok Hi. rewrite <- (session_commit_insert st i a ps Hok Hi).
  by apply session_commit_ok.
Qed.

(** ** The handlers on a stored activity *)

Section handlers.
Context (st : table) (A : Activity).
Hypothesis Hok : store_ok st.
Hypothesis HA : A ∈ st.

Lemma lookup_stored : first (select_where_name (name A) st) = Some A.
Proof. apply first_select_unique; [apply Hok | exact HA]. Qed.

Lemma signup_fresh e :
  e ∉ participants A →
  signup_for_activity (name A) e st =
    (session_commit (set_participants (participants A ++ [e]) A) st,
     Return ("Signed up " +:+ e +:+ " for " +:+ name A)).
Proof.
  intros He. unfold signup_for_activity. rewrite lookup_stored.
  apply py_in_false in He. rewrite He.
  by rewrite py_list_or_empty_id.
Qed.

Lemma signup_present e :
  e ∈ participants A →
  signup_for_activity (name A) e st =
    (st, HTTPException 400 "Student is already signed up").
Proof.
  intros He. unfold signup_for_activity. rewrite lookup_stored.
  apply py_in_true in He. by rewrite He.
Qed.

Lemma unregister_absent e :
  e ∉ participants A →
  unregister_from_activity (name A) e st =
    (st, HTTPException 400 "Student is not signed up for this activity").
Proof.
  intros He. unfold unregister_from_activity. rewrite lookup_stored.
  rewrite py_list_or_empty_id. apply py_in_false in He. by rewrite He.
Qed.

Lemma unregister_present e l1 l2 :
  participants A = l1 ++ e :: l2 → e ∉ l1 →
  unregister_from_activity (name A) e st =
    (session_commit (set_participants (l1 ++ l2) A) st,
     Return ("Unregistered " +:+ e +:+ " from " +:+ name A)).
Proof.
  intros Hps Hl1. unfold unregister_from_activity. rewrite lookup_stored.
  rewrite py_list_or_empty_id.
  assert (e ∈ participants A) as Hin by (rewrite Hps; set_solver).
  destruct (py_remove_elem e _ Hin) as (k1 & k2 & Hk & Hk1 & Hrm).
  apply py_in_true in Hin. rewrite Hin. simpl. rewrite Hrm.
  assert (k1 = l1 ∧ k2 = l2) as [-> ->]; [|done].
  rewrite Hps in Hk. clear -Hk Hk1 Hl1.
  revert k1 Hk Hk1. induction l1 as [|x l1 IH]; intros [|y k1] Hk Hk1.
  - by injection Hk as ->.
  - injection Hk as -> _. exfalso. apply Hk1. apply list_elem_of_here.
  - injection Hk as -> _. exfalso. apply Hl1. apply list_elem_of_here.
  - injection Hk as -> Hk.
    rewrite not_elem_of_cons in Hl1, Hk1.
    destruct (IH (proj2 Hl1) k1 Hk (proj2 Hk1)) as [-> ->]. done.
Qed.
End handlers.

Lemma seeded_ok : store_ok seeded.
Proof. by_evaluation. Qed.


(** ** Signup *)



(** ** Conflicts *)

(** C2: on a stored activity, signing up an email it already lists and
    unregistering an email it does not list both raise HTTPException 400, and
    the table (so the activity's participants and their count) stays as it
    was. *)
Theorem conflict_leaves_participants (st : table) (A : Activity) (e : string) :
  store_ok st → A ∈ st →
  (e ∈ participants A →
     signup_for_activity (name A) e st =
       (st, HTTPException 400 "Student is already signed up")) ∧
  (e ∉ participants A →
     unregister_from_activity (name A) e st =
       (st, HTTPException 400 "Student is not signed up for this activity")).
Proof.
  intros Hok HA. split; intros He.
  - by apply signup_present.
  - by apply unregister_absent.
Qed.

Lemma conflict_leaves_participants_witness :
  signup_for_activity "Chess Club" "daniel@mergington.edu" seeded =
    (seeded, HTTPException 400 "Student is already signed up") ∧
  unregister_from_activity "Chess Club" "emma@mergington.edu" seeded =
    (seeded, HTTPException 400 "Student is not signed up for this activity").
Proof.
  split.
  - apply (conflict_leaves_participants seeded (set_id 1 chess_club)
             "daniel@mergington.edu"); [exact seeded_ok | by_evaluation ..].
  - apply (conflict_leaves_participants seeded (set_id 1 chess_club)
             "emma@mergington.edu"); [exact seeded_ok | by_evaluation ..].
Defined.

(** ** Unregister *)

(** C3: unregistering an email that a stored activity lists succeeds: the
    first entry equal to the email is dropped and nothing else, so the row
    that is written, and that a later lookup by name returns, lists the
    entries before it followed by the entries after it, in their order, one
    entry and one occurrence of the email fewer than before. *)
Theorem unregister_removes_one (st : table) (A : Activity) (e : string) :
  store_ok st → A ∈ st → e ∈ participants A →
  ∃ i l1 l2,
    st !! i = Some A ∧ participants A = l1 ++ e :: l2 ∧ (e ∉ l1) ∧
    let A' := set_participants (l1 ++ l2) A in
    unregister_from_activity (name A) e st =
      (<[i := A']> st, Return ("Unregistered " +:+ e +:+ " from " +:+ name A)) ∧
    first (select_where_name (name A) (<[i := A']> st)) = Some A' ∧
    participants A' = l1 ++ l2 ∧
    length (participants A') + 1 = length (participants A) ∧
    length (filter (λ x, x = e) (participants A')) + 1 =
      length (filter (λ x, x = e) (participants A)).
Proof.
  intros Hok HA He.
  destruct (list_elem_of_lookup_1 _ _ HA) as [i Hi].
  destruct (py_remove_elem e _ He) as (l1 & l2 & Hps & Hl1 & _).
  exists i, l1, l2.
  split; [exact Hi|]. split; [exact Hps|]. split; [exact Hl1|]. simpl.
  split_and!.
  - rewrite (unregister_present st A Hok HA e l1 l2 Hps Hl1).
    by rewrite (session_commit_insert st i A _ Hok Hi).
  - apply (first_select_unique (<[i := set_participants _ A]> st)
             (set_participants (l1 ++ l2) A)).
    + by apply store_ok_insert.
    + eapply list_elem_of_lookup_2. apply list_lookup_insert_eq.
      by eapply lookup_lt_Some.
  - done.
  - rewrite Hps, !length_app. simpl. lia.
  - rewrite Hps, !filter_app, filter_cons, decide_True by done.
    rewrite !length_app. simpl. lia.
Qed.

(** On the seeded table: michael leaves the Chess Club and daniel stays. *)
Lemma unregister_removes_one_witness :
  unregister_from_activity "Chess Club" "michael@mergington.edu" seeded =
    (<[0 := mkActivity (Some 1%Z) "Chess Club"
              (Some "Learn strategies and compete in chess tournaments")
              (Some "Fridays, 3:30 PM - 5:00 PM") (Some 12%Z)
              ["daniel@mergington.edu"]]> seeded,
     Return "Unregistered michael@mergington.edu from Chess Club") ∧
  participants <$>
    first (select_where_name "Chess Club"
             (unregister_from_activity "Chess Club" "michael@mergington.edu"
                seeded).1) =
    Some ["daniel@mergington.edu"].
Proof.
  destruct (unregister_removes_one seeded (set_id 1 chess_club)
              "michael@mergington.edu")
    as (i & l1 & l2 & Hi & Hps & Hl1 & Hun & Hlook & Hnew & _ & _).
  - exact seeded_ok.
  - by_evaluation.
  - by_evaluation.
  - destruct l1 as [|x l1].
    + injection Hps as <-.
      destruct i as [|[|[|i]]]; [|discriminate Hi ..].
      change (name (set_id 1 chess_club)) with "Chess Club" in Hun, Hlook.
      split; [exact Hun|]. rewrite Hun. cbn [fst]. rewrite Hlook.
      cbn [fmap option_fmap option_map]. by rewrite Hnew.
    + injection Hps as <- _. exfalso. apply Hl1. apply list_elem_of_here.
Defined.

(** ** Unknown activities *)

(** C4: for a name that no stored activity has, signup and unregister both
    raise HTTPException 404, whatever the email, and the table stays as it
    was. *)
Theorem unknown_activity_not_found (st : table) (n e : string) :
  n ∉ name <$> st →
  signup_for_activity n e st = (st, HTTPException 404 "Activity not found") ∧
  unregister_from_activity n e st = (st, HTTPException 404 "Activity not found").
Proof.
  intros Hn. unfold signup_for_activity, unregister_from_activity.
  by rewrite (first_select_None n st Hn).
Qed.

Lemma unknown_activity_not_found_witness :
  signup_for_activity "Drama Club" "" seeded =
    (seeded, HTTPException 404 "Activity not found") ∧
  unregister_from_activity "Drama Club" "" seeded =
    (seeded, HTTPException 404 "Activity not found").
Proof.
  apply (unknown_activity_not_found seeded "Drama Club" ""). by_evaluation.
Defined.

(** ** Invariants along a run *)

Lemma session_commit_no_duplicates a st :
  NoDup (participants a) → no_duplicates st → no_duplicates (session_commit a st).
Proof.
  intros Ha Hst. unfold no_duplicates, session_commit. rewrite Forall_fmap.
  eapply Forall_impl; [exact Hst|]. intros r Hr. simpl.
  by destruct (same_key r a).
Qed.

Lemma py_remove_NoDup x l r : py_remove x l = Some r → NoDup l → NoDup r.
Proof.
  intros Hrm Hnd. destruct (decide (x ∈ l)) as [Hin|Hin].
  - destruct (py_remove_elem x l Hin) as (l1 & l2 & -> & _ & Hr).
    rewrite Hr in Hrm. injection Hrm as <-.
    apply NoDup_app in Hnd as (H1 & H12 & H2).
    apply NoDup_cons in H2 as [_ H2].
    apply NoDup_app. split_and!; [done | | done].
    intros y Hy Hy2. apply (H12 y Hy). by apply list_elem_of_further.
  - by rewrite (py_remove_not_elem x l Hin) in Hrm.
Qed.

(** What the two mutating handlers can do to the table. *)
Lemma signup_table n e st :
  (signup_for_activity n e st).1 = st ∨
  ∃ a, a ∈ st ∧ name a = n ∧ (e ∉ participants a) ∧
       signup_for_activity n e st =
         (session_commit (set_participants (participants a ++ [e]) a) st,
          Return ("Signed up " +:+ e +:+ " for " +:+ n)).
Proof.
  unfold signup_for_activity.
  destruct (first (select_where_name n st)) as [a|] eqn:Ea; [|by left].
  apply first_select_elem in Ea as [Ha Hn].
  destruct (py_in e (participants a)) eqn:He; [by left|].
  right. exists a. apply py_in_false in He.
  by rewrite py_list_or_empty_id.
Qed.

Lemma unregister_table n e st :
  (unregister_from_activity n e st).1 = st ∨
  ∃ a ps, a ∈ st ∧ name a = n ∧ py_remove e (participants a) = Some ps ∧
       unregister_from_activity n e st =
         (session_commit (set_participants ps a) st,
          Return ("Unregistered " +:+ e +:+ " from " +:+ n)).
Proof.
  unfold unregister_from_activity.
  destruct (first (select_where_name n st)) as [a|] eqn:Ea; [|by left].
  apply first_select_elem in Ea as [Ha Hn].
  rewrite py_list_or_empty_id.
  destruct (py_in e (participants a)) eqn:He; [|by left]. simpl.
  destruct (py_remove e (participants a)) as [ps|] eqn:Hrm; [|by left].
  right. by exists a, ps.
Qed.

(** [remove] cannot fail after the membership test, so unregister never lets
    a ValueError escape. *)
Lemma unregister_never_uncaught n e st x :
  (unregister_from_activity n e st).2 ≠ Uncaught x.
Proof.
  unfold unregister_from_activity.
  destruct (first (select_where_name n st)) as [a|]; [|done].
  rewrite py_list_or_empty_id.
  destruct (py_in e (participants a)) eqn:He; [|done]. simpl.
  apply py_in_true in He.
  destruct (py_remove_elem e _ He) as (l1 & l2 & _ & _ & ->). done.
Qed.

Lemma seeded_no_duplicates : no_duplicates seeded.
Proof. unfold no_duplicates. by_evaluation. Qed.

Lemma init_db_cases st : (st = [] ∧ init_db st = seeded) ∨ init_db st = st.
Proof. destruct st; [by left | by right]. Qed.

Lemma serve_inv st r : table_inv st → table_inv (serve st r).
Proof.
  intros [Hok Hnd]. destruct r as [| |n e|n e]; simpl.
  - destruct (init_db_cases st) as [[_ ->]| ->]; [|done].
    split; [exact seeded_ok | exact seeded_no_duplicates].
  - done.
  - destruct (signup_table n e st) as [->|(a & Ha & _ & He & ->)]; [done|].
    simpl. split; [by apply session_commit_ok|].
    apply session_commit_no_duplicates; [|done]. simpl.
    apply NoDup_app. split_and!.
    + by apply (proj1 (Forall_forall _ _) Hnd a Ha).
    + intros x Hx Hx'. apply list_elem_of_singleton in Hx'. by subst.
    + apply NoDup_singleton.
  - destruct (unregister_table n e st) as [->|(a & ps & Ha & _ & Hrm & ->)]; [done|].
    simpl. split; [by apply session_commit_ok|].
    apply session_commit_no_duplicates; [|done]. simpl.
    eapply py_remove_NoDup; [exact Hrm|].
    by apply (proj1 (Forall_forall _ _) Hnd a Ha).
Qed.

Lemma foldl_serve_inv reqs st : table_inv st → table_inv (foldl serve st reqs).
Proof.
  revert st. induction reqs as [|r reqs IH]; intros st Hst; [done|].
  simpl. apply IH. by apply serve_inv.
Qed.

Lemma Reachable_inv st : Reachable st → table_inv st.
Proof.
  intros [reqs <-]. apply foldl_serve_inv.
  split; [|by apply Forall_nil].
  split_and!; [by apply Forall_nil | apply NoDup_nil_2 ..].
Qed.


(** C5: in every table reached from the empty one by startups, signups and
    unregistrations, no activity lists an email twice. *)
Theorem reachable_no_duplicate_email (st : table) :
  Reachable st → no_duplicates st.
Proof. intros H. by apply Reachable_inv. Qed.

Lemma reachable_no_duplicate_email_witness :
  no_duplicates
    (run [Startup;
          PostSignup "Chess Club" "new@mergington.edu";
          PostSignup "Chess Club" "new@mergington.edu";
          DeleteUnregister "Gym Class" "john@mergington.edu";
          Startup;
          PostSignup "Gym Class" "john@mergington.edu"]).
Proof.
  apply (reachable_no_duplicate_email _). eexists. reflexivity.
Defined.

(** ** Seeding *)

(** C6: on an empty table [init_db] inserts three rows, "Chess Club",
    "Programming Class" and "Gym Class", under the keys 1, 2 and 3 with the
    descriptions, schedules, capacities and participants of the seed list;
    on a table that holds a row it inserts nothing, so a second startup
    leaves the seeded table as it is. *)
Theorem init_db_seeds_once :
  init_db [] =
    [ mkActivity (Some 1%Z) "Chess Club"
        (Some "Learn strategies and compete in chess tournaments")
        (Some "Fridays, 3:30 PM - 5:00 PM") (Some 12%Z)
        ["michael@mergington.edu"; "daniel@mergington.edu"];
      mkActivity (Some 2%Z) "Programming Class"
        (Some "Learn programming fundamentals and build software projects")
        (Some "Tuesdays and Thursdays, 3:30 PM - 4:30 PM") (Some 20%Z)
        ["emma@mergington.edu"; "sophia@mergington.edu"];
      mkActivity (Some 3%Z) "Gym Class"
        (Some "Physical education and sports activities")
        (Some "Mondays, Wednesdays, Fridays, 2:00 PM - 3:00 PM") (Some 30%Z)
        ["john@mergington.edu"; "olivia@mergington.edu"] ] ∧
  length (init_db []) = 3 ∧
  (∀ a st, init_db (a :: st) = a :: st) ∧
  init_db (init_db []) = init_db [].
Proof. split_and!; [reflexivity | reflexivity | by intros a st | reflexivity]. Qed.

(** ** Capacity *)




(** ** Listing *)

Lemma fold_insert_other (n : string) (st : table) (m : gmap string details) :
  n ∉ name <$> st →
  foldl (λ m a, <[name a := details_of a]> m) m st !! n = m !! n.
Proof.
  revert m. induction st as [|r st IH]; intros m Hn; [done|].
  rewrite fmap_cons, not_elem_of_cons in Hn. destruct Hn as [Hne Hn].
  simpl. rewrite IH by done. by rewrite lookup_insert_ne.
Qed.

Lemma fold_insert_stored (A : Activity) (st : table) (m : gmap string details) :
  NoDup (name <$> st) → A ∈ st →
  foldl (λ m a, <[name a := details_of a]> m) m st !! name A = Some (details_of A).
Proof.
  revert m. induction st as [|r st IH]; intros m Hnd HA.
  - by apply elem_of_nil in HA.
  - rewrite fmap_cons in Hnd. apply NoDup_cons in Hnd as [Hr Hnd]. simpl.
    apply elem_of_cons in HA as [->|HA]; [|by apply IH].
    rewrite fold_insert_other by done. apply lookup_insert_eq.
Qed.





(** ** What a mutation leaves alone *)

(** The UPDATE keeps every column but [participants], and touches no row
    other than the one the object was loaded from. *)
Lemma session_commit_frame (st : table) (a : Activity) (ps : list string)
    (i : nat) (r : Activity) :
  store_ok st → a ∈ st → st !! i = Some r →
  ∃ r', session_commit (set_participants ps a) st !! i = Some r' ∧
    id r' = id r ∧ name r' = name r ∧ description r' = description r ∧
    schedule r' = schedule r ∧ max_participants r' = max_participants r ∧
    (name r ≠ name a → r' = r).
Proof.
  intros Hok Ha Hi.
  destruct (list_elem_of_lookup_1 _ _ Ha) as [j Hj].
  rewrite (session_commit_insert st j a ps Hok Hj).
  destruct (decide (j = i)) as [->|Hne].
  - rewrite list_lookup_insert_eq by (by eapply lookup_lt_Some).
    assert (r = a) as -> by congruence.
    eexists. split; [done|]. by split_and!.
  - rewrite list_lookup_insert_ne by done.
    exists r. by split_and!.
Qed.

(** C9: a signup or unregister for the name N that succeeds keeps the rows
    of the table in place, keeps the id, name, description, schedule and
    max_participants of every row, and leaves every row of another name as it
    was: only the participants of the activity named N can differ. *)
Theorem mutation_frame (st st' : table) (N e msg : string) :
  store_ok st →
  signup_for_activity N e st = (st', Return msg) ∨
  unregister_from_activity N e st = (st', Return msg) →
  length st' = length st ∧
  ∀ i r, st !! i = Some r →
    ∃ r', st' !! i = Some r' ∧
      id r' = id r ∧ name r' = name r ∧ description r' = description r ∧
      schedule r' = schedule r ∧ max_participants r' = max_participants r ∧
      (name r ≠ N → r' = r).
Proof.
  intros Hok H.
  assert (st' = st ∨ ∃ a ps, a ∈ st ∧ name a = N ∧
            st' = session_commit (set_participants ps a) st) as [->|Hst'].
  { destruct H as [H|H].
    - destruct (signup_table N e st) as [Hs|(a & Ha & Hn & _ & Hs)];
        rewrite H in Hs; simpl in Hs; [by left|].
      right. exists a, (participants a ++ [e]). by injection Hs as -> _.
    - destruct (unregister_table N e st) as [Hs|(a & ps & Ha & Hn & _ & Hs)];
        rewrite H in Hs; simpl in Hs; [by left|].
      right. exists a, ps. by injection Hs as -> _. }
  - split; [done|]. intros i r Hi. exists r. by split_and!.
  - destruct Hst' as (a & ps & Ha & <- & ->).
    split; [apply session_commit_length|].
    intros i r Hi. by apply session_commit_frame.
Qed.

Lemma mutation_frame_witness :
  let st' := (signup_for_activity "Chess Club" "new@mergington.edu" seeded).1 in
  length st' = length seeded ∧
  ∀ i r, seeded !! i = Some r →
    ∃ r', st' !! i = Some r' ∧
      id r' = id r ∧ name r' = name r ∧ description r' = description r ∧
      schedule r' = schedule r ∧ max_participants r' = max_participants r ∧
      (name r ≠ "Chess Club" → r' = r).
Proof.
  apply (mutation_frame seeded _ "Chess Club" "new@mergington.edu"
           "Signed up new@mergington.edu for Chess Club").
  - exact seeded_ok.
  - left. reflexivity.
Defined.

(** ** No validation of the email *)

(** C10: signup and unregister take the email as it comes. For any string,
    of any shape, that a stored activity does not list, signup succeeds and
    stores exactly that string as the activity's last participant; and
    unregister with the same string then succeeds and gives back the table
    from before the signup. *)
Theorem email_not_validated (st : table) (A : Activity) (e : string) :
  store_ok st → A ∈ st → e ∉ participants A →
  ∃ st',
    signup_for_activity (name A) e st =
      (st', Return ("Signed up " +:+ e +:+ " for " +:+ name A)) ∧
    (∃ A', A' ∈ st' ∧ name A' = name A ∧
           participants A' = participants A ++ [e]) ∧
    unregister_from_activity (name A) e st' =
      (st, Return ("Unregistered " +:+ e +:+ " from " +:+ name A)).
Proof.
  intros Hok HA He.
  destruct (list_elem_of_lookup_1 _ _ HA) as [i Hi].
  set (A' := set_participants (participants A ++ [e]) A).
  assert (i < length st) as Hlt by (by eapply lookup_lt_Some).
  assert (store_ok (<[i := A']> st)) as Hok' by (by apply store_ok_insert).
  assert (<[i := A']> st !! i = Some A') as Hi' by (by apply list_lookup_insert_eq).
  assert (A' ∈ <[i := A']> st) as HA' by (by eapply list_elem_of_lookup_2).
  exists (<[i := A']> st). split_and!.
  - rewrite (signup_fresh st A Hok HA e He).
    by rewrite (session_commit_insert st i A _ Hok Hi).
  - by exists A'.
  - change (name A) with (name A').
    rewrite (unregister_present _ A' Hok' HA' e (participants A) []); [|done..].
    rewrite (session_commit_insert _ i A' _ Hok' Hi').
    rewrite list_insert_insert_eq, app_nil_r.
    unfold A'. rewrite set_participants_twice, set_participants_same.
    by rewrite list_insert_id.
Qed.

(** The empty string and a string without an at sign. *)
Lemma email_not_validated_witness :
  (∃ st',
    signup_for_activity "Chess Club" "" seeded =
      (st', Return "Signed up  for Chess Club") ∧
    (∃ A', A' ∈ st' ∧ name A' = "Chess Club" ∧
           participants A' =
             ["michael@mergington.edu"; "daniel@mergington.edu"; ""]) ∧
    unregister_from_activity "Chess Club" "" st' =
      (seeded, Return "Unregistered  from Chess Club")) ∧
  (∃ st',
    signup_for_activity "Gym Class" "not an email" seeded =
      (st', Return "Signed up not an email for Gym Class") ∧
    (∃ A', A' ∈ st' ∧ name A' = "Gym Class" ∧
           participants A' =
             ["john@mergington.edu"; "olivia@mergington.edu"; "not an email"]) ∧
    unregister_from_activity "Gym Class" "not an email" st' =
      (seeded, Return "Unregistered not an email from Gym Class")).
Proof.
  split.
  - apply (email_not_validated seeded (set_id 1 chess_club) "");
      [exact seeded_ok | by_evaluation ..].
  - apply (email_not_validated seeded (set_id 3 gym_class) "not an email");
      [exact seeded_ok | by_evaluation ..].
Defined.

(** * Further properties of the handlers *)

(** ** The answers a handler can give *)

Lemma signup_cases (n e : string) (st : table) :
  store_ok st →
  ((n ∉ name <$> st) ∧
   signup_for_activity n e st = (st, HTTPException 404 "Activity not found")) ∨
  ∃ i A, st !! i = Some A ∧ name A = n ∧
    ((e ∈ participants A ∧
      signup_for_activity n e st =
        (st, HTTPException 400 "Student is already signed up")) ∨
     ((e ∉ participants A) ∧
      signup_for_activity n e st =
        (<[i := set_participants (participants A ++ [e]) A]> st,
         Return ("Signed up " +:+ e +:+ " for " +:+ n)))).
Proof.
  intros Hok. destruct (decide (n ∈ name <$> st)) as [Hn|Hn].
  - right. apply list_elem_of_fmap in Hn as (A & -> & HA).
    destruct (list_elem_of_lookup_1 _ _ HA) as [i Hi].
    exists i, A. split; [done|]. split; [done|].
    destruct (decide (e ∈ participants A)) as [He|He].
    + left. split; [done|]. by apply signup_present.
    + right. split; [done|]. rewrite (signup_fresh st A Hok HA e He).
      by rewrite (session_commit_insert st i A _ Hok Hi).
  - left. split; [done|]. unfold signup_for_activity.
    by rewrite (first_select_None n st Hn).
Qed.

Lemma unregister_cases (n e : string) (st : table) :
  store_ok st →
  ((n ∉ name <$> st) ∧
   unregister_from_activity n e st = (st, HTTPException 404 "Activity not found")) ∨
  ∃ i A, st !! i = Some A ∧ name A = n ∧
    (((e ∉ participants A) ∧
      unregister_from_activity n e st =
        (st, HTTPException 400 "Student is not signed up for this activity")) ∨
     (∃ l1 l2, participants A = l1 ++ e :: l2 ∧ (e ∉ l1) ∧
      unregister_from_activity n e st =
        (<[i := set_participants (l1 ++ l2) A]> st,
         Return ("Unregistered " +:+ e +:+ " from " +:+ n)))).
Proof.
  intros Hok. destruct (decide (n ∈ name <$> st)) as [Hn|Hn].
  - right. apply list_elem_of_fmap in Hn as (A & -> & HA).
    destruct (list_elem_of_lookup_1 _ _ HA) as [i Hi].
    exists i, A. split; [done|]. split; [done|].
    destruct (decide (e ∈ participants A)) as [He|He].
    + right. destruct (py_remove_elem e _ He) as (l1 & l2 & Hps & Hl1 & _).
      exists l1, l2. split; [done|]. split; [done|].
      rewrite (unregister_present st A Hok HA e l1 l2 Hps Hl1).
      by rewrite (session_commit_insert st i A _ Hok Hi).
    + left. split; [done|]. by apply unregister_absent.
  - left. split; [done|]. unfold unregister_from_activity.
    by rewrite (first_select_None n st Hn).
Qed.

Lemma first_select_None_iff (n : string) (st : table) :
  first (select_where_name n st) = None ↔ n ∉ name <$> st.
Proof.
  split; [|apply first_select_None].
  intros Hnone Hn. apply list_elem_of_fmap in Hn as (a & -> & Ha).
  unfold first in Hnone. apply head_None in Hnone.
  assert (a ∈ select_where_name (name a) st) as Hin.
  { unfold select_where_name. by apply list_elem_of_filter. }
  rewrite Hnone in Hin. by apply elem_of_nil in Hin.
Qed.

(** X1: on any table, for any name and email, unregister gives one of three
    answers, decided by the first row of that name: 404 "Activity not
    found" exactly when no row has the name, 400 "Student is not signed up
    for this activity" exactly when that row does not list the email, and
    the success message exactly when it does. The [remove] never raises,
    because the membership test on the same list comes first. *)
Theorem unregister_answers (n e : string) (st : table) :
  (∀ x, (unregister_from_activity n e st).2 ≠ Uncaught x) ∧
  ((unregister_from_activity n e st).2 = HTTPException 404 "Activity not found" ↔
     n ∉ name <$> st) ∧
  ((unregister_from_activity n e st).2 =
     HTTPException 400 "Student is not signed up for this activity" ↔
     ∃ a, first (select_where_name n st) = Some a ∧ e ∉ participants a) ∧
  ((unregister_from_activity n e st).2 =
     Return ("Unregistered " +:+ e +:+ " from " +:+ n) ↔
     ∃ a, first (select_where_name n st) = Some a ∧ e ∈ participants a).
Proof.
  split; [intros x; apply unregister_never_uncaught|].
  rewrite <- first_select_None_iff. unfold unregister_from_activity.
  destruct (first (select_where_name n st)) as [a|].
  - rewrite py_list_or_empty_id.
    destruct (decide (e ∈ participants a)) as [He|He].
    + destruct (py_remove_elem e _ He) as (l1 & l2 & _ & _ & Hrm).
      rewrite Hrm. rewrite (proj2 (py_in_true e _) He). simpl.
      split_and!; split; try done.
      * intros (b & [= <-] & Hb). done.
      * intros _. by exists a.
    + rewrite (proj2 (py_in_false e _) He). simpl.
      split_and!; split; try done.
      * intros _. by exists a.
      * intros (b & [= <-] & Hb). done.
  - simpl. split_and!; split; try done.
    + by intros (b & ? & _).
    + by intros (b & ? & _).
Qed.

(** ** Success and change of the table *)

Lemma insert_changed_participants (st : table) (i : nat) (A : Activity)
    (ps : list string) :
  st !! i = Some A → length ps ≠ length (participants A) →
  <[i := set_participants ps A]> st ≠ st.
Proof.
  intros Hi Hlen Heq.
  assert (<[i := set_participants ps A]> st !! i = Some (set_participants ps A)) as H.
  { apply list_lookup_insert_eq. by eapply lookup_lt_Some. }
  rewrite Heq, Hi in H. injection H as H.
  apply Hlen. by rewrite H.
Qed.

(** X2: in a table with unique keys and names, a signup or unregister leaves
    the table exactly as it was if and only if it answers with an
    HTTPException; a success always changes the table. *)
Theorem table_changes_iff_success (n e : string) (st : table) :
  store_ok st →
  ((signup_for_activity n e st).1 = st ↔
     ∃ code detail, (signup_for_activity n e st).2 = HTTPException code detail) ∧
  ((unregister_from_activity n e st).1 = st ↔
     ∃ code detail, (unregister_from_activity n e st).2 = HTTPException code detail).
Proof.
  intros Hok. split.
  - destruct (signup_cases n e st Hok)
      as [[_ ->]|(i & A & Hi & Hn & [[_ ->]|[He ->]])]; simpl.
    + split; [eauto | done].
    + split; [eauto | done].
    + split.
      * intros H. exfalso. revert H. apply insert_changed_participants; [done|].
        rewrite length_app. simpl. lia.
      * intros (? & ? & ?). done.
  - destruct (unregister_cases n e st Hok)
      as [[_ ->]|(i & A & Hi & Hn & [[_ ->]|(l1 & l2 & Hps & _ & ->)])]; simpl.
    + split; [eauto | done].
    + split; [eauto | done].
    + split.
      * intros H. exfalso. revert H. apply insert_changed_participants; [done|].
        rewrite Hps, !length_app. simpl. lia.
      * intros (? & ? & ?). done.
Qed.

Lemma table_changes_iff_success_witness :
  ((signup_for_activity "Chess Club" "new@mergington.edu" seeded).1 = seeded ↔
     ∃ code detail,
       (signup_for_activity "Chess Club" "new@mergington.edu" seeded).2 =
         HTTPException code detail) ∧
  ((unregister_from_activity "Chess Club" "new@mergington.edu" seeded).1 = seeded ↔
     ∃ code detail,
       (unregister_from_activity "Chess Club" "new@mergington.edu" seeded).2 =
         HTTPException code detail).
Proof.
  apply (table_changes_iff_success "Chess Club" "new@mergington.edu" seeded).
  exact seeded_ok.
Defined.

(** ** What a run can and cannot change *)

Lemma fixed_columns_commit (a : Activity) (st : table) :
  fixed_columns <$> session_commit a st = fixed_columns <$> st.
Proof.
  unfold session_commit. rewrite <- list_fmap_compose.
  apply list_fmap_ext. intros i r _. simpl. by destruct (same_key r a).
Qed.

Lemma serve_fixed_columns (st : table) (r : request) :
  st ≠ [] → fixed_columns <$> serve st r = fixed_columns <$> st.
Proof.
  intros Hst. destruct r as [| |n e|n e]; simpl.
  - by destruct (init_db_cases st) as [[? _]| ->].
  - done.
  - destruct (signup_table n e st) as [->|(a & _ & _ & _ & ->)]; [done|].
    apply fixed_columns_commit.
  - destruct (unregister_table n e st) as [->|(a & ps & _ & _ & _ & ->)]; [done|].
    apply fixed_columns_commit.
Qed.

Lemma serve_empty (r : request) : serve [] r = [] ∨ (r = Startup ∧ serve [] r = seeded).
Proof. destruct r; [by right | by left ..]. Qed.

Lemma foldl_serve_fixed_columns (reqs : list request) (st : table) :
  st ≠ [] → fixed_columns <$> foldl serve st reqs = fixed_columns <$> st.
Proof.
  revert st. induction reqs as [|r reqs IH]; intros st Hst; [done|].
  simpl. rewrite IH.
  - by apply serve_fixed_columns.
  - intros Heq. apply Hst. apply (fmap_nil_inv fixed_columns).
    rewrite <- (serve_fixed_columns st r Hst). by rewrite Heq.
Qed.

Lemma foldl_serve_empty_or_seeded (reqs : list request) :
  foldl serve [] reqs = [] ∨
  fixed_columns <$> foldl serve [] reqs = fixed_columns <$> seeded.
Proof.
  induction reqs as [|r reqs IH] using rev_ind; [by left|].
  rewrite foldl_app. simpl. destruct IH as [->|IH].
  - destruct (serve_empty r) as [->|[_ ->]]; [by left | by right].
  - right. rewrite serve_fixed_columns; [done|].
    intros Heq. by rewrite Heq in IH.
Qed.

(** X3: no request creates, deletes, renames or re-keys an activity. Every
    table the application can reach is empty or holds exactly the three
    seeded rows, in their order, with their keys, names, descriptions,
    schedules and capacities; only the participants can differ. *)
Theorem reachable_rows_are_seed_rows (st : table) :
  Reachable st →
  st = [] ∨ fixed_columns <$> st = fixed_columns <$> seeded.
Proof. intros [reqs <-]. apply foldl_serve_empty_or_seeded. Qed.

Lemma reachable_rows_are_seed_rows_witness :
  full_chess_club = [] ∨
  fixed_columns <$> full_chess_club = fixed_columns <$> seeded.
Proof.
  apply (reachable_rows_are_seed_rows full_chess_club).
  exists chess_signups. vm_compute. reflexivity.
Defined.

(** X4: every table the application can reach has a key in every row, no key
    twice and no activity name twice, although the schema only indexes the
    name column: the lookup by name is never ambiguous. *)
Theorem reachable_keys_and_names_unique (st : table) :
  Reachable st → store_ok st.
Proof. intros H. by apply Reachable_inv. Qed.

Lemma reachable_keys_and_names_unique_witness :
  store_ok (run [Startup; PostSignup "Gym Class" "new@mergington.edu"; Startup]).
Proof.
  apply (reachable_keys_and_names_unique _). eexists. reflexivity.
Defined.

(** ** Startup within a run *)

Lemma foldl_serve_nonempty (reqs : list request) (st : table) :
  st ≠ [] → foldl serve st reqs ≠ [].
Proof.
  intros Hst Heq. apply Hst. apply (fmap_nil_inv fixed_columns).
  rewrite <- (foldl_serve_fixed_columns reqs st Hst). by rewrite Heq.
Qed.

Lemma foldl_serve_no_startup (reqs : list request) :
  Startup ∉ reqs → foldl serve [] reqs = [].
Proof.
  induction reqs as [|r reqs IH]; [done|].
  rewrite not_elem_of_cons. intros [Hr Hreqs]. simpl.
  destruct (serve_empty r) as [->|[-> _]]; [by apply IH | done].
Qed.

Lemma foldl_serve_startup (reqs : list request) (st : table) :
  Startup ∈ reqs → foldl serve st reqs ≠ [].
Proof.
  revert st. induction reqs as [|r reqs IH]; intros st Hin.
  - by apply elem_of_nil in Hin.
  - simpl. apply elem_of_cons in Hin as [<-|Hin]; [|by apply IH].
    apply foldl_serve_nonempty. simpl.
    destruct (init_db_cases st) as [[_ ->]|Hst]; [done|].
    rewrite Hst. intros ->. done.
Qed.

(** X5: the table of a run is empty exactly when the run contains no
    startup: before the first startup every request leaves the table empty,
    and once seeded the table never becomes empty again. *)
Theorem empty_iff_never_started (reqs : list request) :
  run reqs = [] ↔ Startup ∉ reqs.
Proof.
  unfold run. split.
  - intros Hrun Hin. by apply (foldl_serve_startup reqs [] Hin).
  - apply foldl_serve_no_startup.
Qed.

(** X6: a startup that follows an earlier startup of the run changes
    nothing, whatever was signed up or unregistered in between: a restart
    keeps the participants. *)
Theorem restart_keeps_table (reqs : list request) :
  Startup ∈ reqs → run (reqs ++ [Startup]) = run reqs.
Proof.
  intros Hin. unfold run. rewrite foldl_app. simpl.
  destruct (init_db_cases (foldl serve [] reqs)) as [[Hempty _]|H]; [|done].
  exfalso. by apply (foldl_serve_startup reqs [] Hin).
Qed.

Lemma restart_keeps_table_witness :
  run ([Startup; PostSignup "Chess Club" "new@mergington.edu";
        DeleteUnregister "Gym Class" "john@mergington.edu"] ++ [Startup]) =
  run [Startup; PostSignup "Chess Club" "new@mergington.edu";
       DeleteUnregister "Gym Class" "john@mergington.edu"].
Proof.
  apply (restart_keeps_table
           [Startup; PostSignup "Chess Club" "new@mergington.edu";
            DeleteUnregister "Gym Class" "john@mergington.edu"]).
  apply list_elem_of_here.
Defined.

(** ** The listing on any table *)

Lemma get_activities_snoc (st : table) (a : Activity) :
  get_activities (st ++ [a]) = <[name a := details_of a]> (get_activities st).
Proof. unfold get_activities, select_all. by rewrite foldl_app. Qed.

Lemma get_activities_lookup (st : table) (n : string) :
  get_activities st !! n = details_of <$> last (select_where_name n st).
Proof.
  induction st as [|a st IH] using rev_ind; [done|].
  rewrite get_activities_snoc. unfold select_where_name in *.
  rewrite filter_app, filter_cons, filter_nil.
  destruct (decide (name a = n)) as [Heq|Hne].
  - rewrite Heq, lookup_insert_eq. by rewrite last_snoc.
  - rewrite lookup_insert_ne by done. by rewrite app_nil_r.
Qed.

Lemma get_activities_dom (st : table) :
  dom (get_activities st) = list_to_set (name <$> st).
Proof.
  induction st as [|a st IH] using rev_ind; [apply dom_empty_L|].
  rewrite get_activities_snoc, dom_insert_L, IH.
  rewrite fmap_app, list_to_set_app_L. simpl.
  rewrite (right_id_L ∅ (∪)). apply (comm_L (∪)).
Qed.

(** X7: on any table, also one where several rows carry the same name, the
    listing has an entry for exactly the names that occur, the entry of a
    name holds the columns of the last row of that name in rowid order, and a
    name has no entry exactly when a signup for it answers 404. *)
Theorem listing_shows_last_row (st : table) (n : string) :
  get_activities st !! n = details_of <$> last (select_where_name n st) ∧
  (is_Some (get_activities st !! n) ↔ n ∈ name <$> st) ∧
  (∀ e, get_activities st !! n = None ↔
     signup_for_activity n e st = (st, HTTPException 404 "Activity not found")).
Proof.
  split_and!.
  - apply get_activities_lookup.
  - rewrite <- elem_of_dom, get_activities_dom. by rewrite elem_of_list_to_set.
  - intros e. rewrite get_activities_lookup, fmap_None, last_None.
    unfold signup_for_activity, first.
    destruct (select_where_name n st) as [|a l] eqn:E; simpl; [done|].
    split; [done|]. destruct (py_in e (participants a)); intros H; [done|].
    by injection H.
Qed.

(** X8: when no name occurs twice, the listing has as many entries as the
    table has rows. *)
Theorem listing_size (st : table) :
  NoDup (name <$> st) → size (get_activities st) = length st.
Proof.
  intros Hnd. rewrite <- size_dom, get_activities_dom.
  rewrite size_list_to_set by done. by rewrite length_fmap.
Qed.

Lemma listing_size_witness :
  size (get_activities seeded) = length seeded.
Proof. apply (listing_size seeded). by_evaluation. Defined.

(** ** The listing after a mutation *)

Lemma select_other_name_insert (st : table) (i : nat) (A : Activity)
    (ps : list string) (k : string) :
  st !! i = Some A → name A ≠ k →
  select_where_name k (<[i := set_participants ps A]> st) = select_where_name k st.
Proof.
  intros Hi Hne. unfold select_where_name.
  rewrite insert_take_drop by (by eapply lookup_lt_Some).
  rewrite <- (take_drop_middle st i A Hi) at 3.
  rewrite !filter_app, !filter_cons.
  rewrite decide_False by done. by rewrite decide_False by done.
Qed.

Lemma get_activities_insert (st : table) (i : nat) (A : Activity) (ps : list string) :
  store_ok st → st !! i = Some A →
  get_activities (<[i := set_participants ps A]> st) =
    <[name A := details_of (set_participants ps A)]> (get_activities st).
Proof.
  intros Hok Hi. apply map_eq. intros k.
  destruct (decide (name A = k)) as [<-|Hne].
  - rewrite lookup_insert_eq.
    change (name A) with (name (set_participants ps A)).
    apply fold_insert_stored.
    + by apply store_ok_insert.
    + eapply list_elem_of_lookup_2. apply list_lookup_insert_eq.
      by eapply lookup_lt_Some.
  - rewrite lookup_insert_ne by done. rewrite !get_activities_lookup.
    by rewrite (select_other_name_insert st i A ps k Hi Hne).
Qed.

(** X9: a successful signup shows in the listing as one changed entry: the
    entry of the activity gets the email appended to its participants, with
    description, schedule and capacity as before, and all other entries are
    the same. *)
Theorem signup_updates_listing (st st' : table) (n e msg : string) :
  store_ok st → signup_for_activity n e st = (st', Return msg) →
  ∃ d, get_activities st !! n = Some d ∧
    get_activities st' =
      <[n := mkDetails (d_description d) (d_schedule d) (d_max_participants d)
                       (d_participants d ++ [e])]> (get_activities st).
Proof.
  intros Hok H.
  destruct (signup_cases n e st Hok)
    as [[_ Hs]|(i & A & Hi & Hn & [[_ Hs]|[He Hs]])];
    rewrite Hs in H; [done | done |].
  injection H as <- _. subst n. exists (details_of A). split.
  - apply fold_insert_stored; [apply Hok | by eapply list_elem_of_lookup_2].
  - by rewrite get_activities_insert.
Qed.

Lemma signup_updates_listing_witness :
  ∃ d, get_activities seeded !! "Chess Club" = Some d ∧
    get_activities (signup_for_activity "Chess Club" "new@mergington.edu" seeded).1 =
      <["Chess Club" :=
          mkDetails (d_description d) (d_schedule d) (d_max_participants d)
                    (d_participants d ++ ["new@mergington.edu"])]>
        (get_activities seeded).
Proof.
  apply (signup_updates_listing seeded _ "Chess Club" "new@mergington.edu"
           "Signed up new@mergington.edu for Chess Club").
  - exact seeded_ok.
  - reflexivity.
Defined.

(** X10: a successful unregister shows in the listing as one changed entry:
    the entry of the activity loses the first occurrence of the email among
    its participants, the others keeping their order, and all other entries
    are the same. *)
Theorem unregister_updates_listing (st st' : table) (n e msg : string) :
  store_ok st → unregister_from_activity n e st = (st', Return msg) →
  ∃ d l1 l2, get_activities st !! n = Some d ∧
    d_participants d = l1 ++ e :: l2 ∧ (e ∉ l1) ∧
    get_activities st' =
      <[n := mkDetails (d_description d) (d_schedule d) (d_max_participants d)
                       (l1 ++ l2)]> (get_activities st).
Proof.
  intros Hok H.
  destruct (unregister_cases n e st Hok)
    as [[_ Hs]|(i & A & Hi & Hn & [[_ Hs]|(l1 & l2 & Hps & Hl1 & Hs)])];
    rewrite Hs in H; [done | done |].
  injection H as <- _. subst n. exists (details_of A), l1, l2. split_and!.
  - apply fold_insert_stored; [apply Hok | by eapply list_elem_of_lookup_2].
  - done.
  - done.
  - by rewrite get_activities_insert.
Qed.

Lemma unregister_updates_listing_witness :
  ∃ d l1 l2, get_activities seeded !! "Gym Class" = Some d ∧
    d_participants d = l1 ++ "olivia@mergington.edu" :: l2 ∧
    ("olivia@mergington.edu" ∉ l1) ∧
    get_activities
      (unregister_from_activity "Gym Class" "olivia@mergington.edu" seeded).1 =
      <["Gym Class" :=
          mkDetails (d_description d) (d_schedule d) (d_max_participants d)
                    (l1 ++ l2)]> (get_activities seeded).
Proof.
  apply (unregister_updates_listing seeded _ "Gym Class" "olivia@mergington.edu"
           "Unregistered olivia@mergington.edu from Gym Class").
  - exact seeded_ok.
  - reflexivity.
Defined.

(** ** Repeating and undoing requests *)

(** X11: in a table that satisfies the invariants of a run, the same request
    sent again right after it succeeded is refused with 400 and changes
    nothing: a second signup finds the email listed, a second unregister
    finds it gone. *)
Theorem repeated_request_refused (st st' : table) (n e msg : string) :
  table_inv st →
  (signup_for_activity n e st = (st', Return msg) →
   signup_for_activity n e st' =
     (st', HTTPException 400 "Student is already signed up")) ∧
  (unregister_from_activity n e st = (st', Return msg) →
   unregister_from_activity n e st' =
     (st', HTTPException 400 "Student is not signed up for this activity")).
Proof.
  intros [Hok Hnd]. split; intros H.
  - destruct (signup_cases n e st Hok)
      as [[_ Hs]|(i & A & Hi & Hn & [[_ Hs]|[He Hs]])];
      rewrite Hs in H; [done | done |].
    injection H as <- _. subst n.
    set (A' := set_participants (participants A ++ [e]) A).
    change (name A) with (name A'). apply signup_present.
    + by apply store_ok_insert.
    + eapply list_elem_of_lookup_2. apply list_lookup_insert_eq.
      by eapply lookup_lt_Some.
    + simpl. set_solver.
  - destruct (unregister_cases n e st Hok)
      as [[_ Hs]|(i & A & Hi & Hn & [[_ Hs]|(l1 & l2 & Hps & Hl1 & Hs)])];
      rewrite Hs in H; [done | done |].
    injection H as <- _. subst n.
    set (A' := set_participants (l1 ++ l2) A).
    change (name A) with (name A'). apply unregister_absent.
    + by apply store_ok_insert.
    + eapply list_elem_of_lookup_2. apply list_lookup_insert_eq.
      by eapply lookup_lt_Some.
    + simpl. rewrite not_elem_of_app. split; [done|].
      assert (NoDup (participants A)) as HA.
      { apply (proj1 (Forall_lookup _ _) Hnd i A Hi). }
      rewrite Hps in HA. apply NoDup_app in HA as (_ & _ & HA).
      by apply NoDup_cons in HA as [? _].
Qed.

Lemma repeated_request_refused_witness :
  signup_for_activity "Chess Club" "new@mergington.edu"
    (signup_for_activity "Chess Club" "new@mergington.edu" seeded).1 =
    ((signup_for_activity "Chess Club" "new@mergington.edu" seeded).1,
     HTTPException 400 "Student is already signed up") ∧
  unregister_from_activity "Chess Club" "daniel@mergington.edu"
    (unregister_from_activity "Chess Club" "daniel@mergington.edu" seeded).1 =
    ((unregister_from_activity "Chess Club" "daniel@mergington.edu" seeded).1,
     HTTPException 400 "Student is not signed up for this activity").
Proof.
  split.
  - apply (proj1 (repeated_request_refused seeded _ "Chess Club"
                    "new@mergington.edu"
                    "Signed up new@mergington.edu for Chess Club"
                    (conj seeded_ok seeded_no_duplicates))).
    reflexivity.
  - apply (proj2 (repeated_request_refused seeded _ "Chess Club"
                    "daniel@mergington.edu"
                    "Unregistered daniel@mergington.edu from Chess Club"
                    (conj seeded_ok seeded_no_duplicates))).
    reflexivity.
Defined.

(** X12: unregistering a listed email and signing it up again puts the
    email last: both requests succeed and the email ends up behind the
    participants that used to follow it, so the table comes back as it was
    only when the email was already the last one. *)
Theorem unregister_then_signup_moves_last (st : table) (A : Activity)
    (e : string) (l1 l2 : list string) :
  store_ok st → A ∈ st →
  participants A = l1 ++ e :: l2 → e ∉ l1 → e ∉ l2 →
  ∃ i st1, st !! i = Some A ∧
    unregister_from_activity (name A) e st =
      (st1, Return ("Unregistered " +:+ e +:+ " from " +:+ name A)) ∧
    signup_for_activity (name A) e st1 =
      (<[i := set_participants (l1 ++ l2 ++ [e]) A]> st,
       Return ("Signed up " +:+ e +:+ " for " +:+ name A)).
Proof.
  intros Hok HA Hps Hl1 Hl2.
  destruct (list_elem_of_lookup_1 _ _ HA) as [i Hi].
  set (A1 := set_participants (l1 ++ l2) A).
  assert (i < length st) as Hlt by (by eapply lookup_lt_Some).
  assert (store_ok (<[i := A1]> st)) as Hok1 by (by apply store_ok_insert).
  assert (<[i := A1]> st !! i = Some A1) as Hi1 by (by apply list_lookup_insert_eq).
  assert (A1 ∈ <[i := A1]> st) as HA1 by (by eapply list_elem_of_lookup_2).
  exists i, (<[i := A1]> st). split_and!; [done | |].
  - rewrite (unregister_present st A Hok HA e l1 l2 Hps Hl1).
    by rewrite (session_commit_insert st i A _ Hok Hi).
  - change (name A) with (name A1).
    rewrite (signup_fresh _ A1 Hok1 HA1 e).
    + rewrite (session_commit_insert _ i A1 _ Hok1 Hi1).
      rewrite list_insert_insert_eq. unfold A1.
      rewrite set_participants_twice. simpl. by rewrite <- app_assoc.
    + simpl. rewrite not_elem_of_app. done.
Qed.

Lemma unregister_then_signup_moves_last_witness :
  ∃ i st1, seeded !! i = Some (set_id 1 chess_club) ∧
    unregister_from_activity "Chess Club" "michael@mergington.edu" seeded =
      (st1, Return "Unregistered michael@mergington.edu from Chess Club") ∧
    signup_for_activity "Chess Club" "michael@mergington.edu" st1 =
      (<[i := set_participants
                ([] ++ ["daniel@mergington.edu"] ++ ["michael@mergington.edu"])
                (set_id 1 chess_club)]> seeded,
       Return "Signed up michael@mergington.edu for Chess Club").
Proof.
  apply (unregister_then_signup_moves_last seeded (set_id 1 chess_club)
           "michael@mergington.edu" [] ["daniel@mergington.edu"]).
  - exact seeded_ok.
  - by_evaluation.
  - reflexivity.
  - by_evaluation.
  - by_evaluation.
Defined.

(** ** Requests for different activities *)

(** A mutating request acts through the row its lookup finds. *)
Lemma serve_by_row (r : request) (n : string) (st : table) :
  target r = Some n →
  serve st r =
    match first (select_where_name n st) with
    | Some a =>
        match new_participants r a with
        | Some ps => session_commit (set_participants ps a) st
        | None => st
        end
    | None => st
    end.
Proof.
  destruct r as [| |m e|m e]; simpl; intros Ht; try done;
    injection Ht as ->.
  - unfold signup_for_activity.
    destruct (first (select_where_name n st)) as [a|]; [|done].
    by destruct (py_in e (participants a)).
  - unfold unregister_from_activity.
    destruct (first (select_where_name n st)) as [a|]; [|done].
    destruct (negb (py_in e (py_list_or_empty (participants a)))); [done|].
    by destruct (py_remove e (py_list_or_empty (participants a))).
Qed.

Lemma select_other_name_serve (r : request) (n k : string) (st : table) :
  store_ok st → target r = Some n → n ≠ k →
  select_where_name k (serve st r) = select_where_name k st.
Proof.
  intros Hok Ht Hne. rewrite (serve_by_row r n st Ht).
  destruct (first (select_where_name n st)) as [a|] eqn:Ea; [|done].
  destruct (new_participants r a) as [ps|]; [|done].
  apply first_select_elem in Ea as [Ha <-].
  destruct (list_elem_of_lookup_1 _ _ Ha) as [i Hi].
  rewrite (session_commit_insert st i a ps Hok Hi).
  by apply select_other_name_insert.
Qed.

Lemma stored_key_unique (st : table) (a b : Activity) (k : Z) :
  store_ok st → a ∈ st → b ∈ st → id a = Some k → id b = Some k → a = b.
Proof.
  intros (_ & Hids & _) Ha Hb Hka Hkb.
  destruct (list_elem_of_lookup_1 _ _ Ha) as [i Hi].
  destruct (list_elem_of_lookup_1 _ _ Hb) as [j Hj].
  assert (i = j) as ->; [|congruence].
  eapply (NoDup_lookup (id <$> st) i j (Some k)); [done| |].
  - by rewrite list_lookup_fmap, Hi; simpl; rewrite Hka.
  - by rewrite list_lookup_fmap, Hj; simpl; rewrite Hkb.
Qed.

Lemma session_commit_comm (st : table) (a b : Activity) (ps qs : list string) :
  store_ok st → a ∈ st → b ∈ st → name a ≠ name b →
  session_commit (set_participants qs b) (session_commit (set_participants ps a) st) =
  session_commit (set_participants ps a) (session_commit (set_participants qs b) st).
Proof.
  intros Hok Ha Hb Hne. unfold session_commit.
  rewrite <- !list_fmap_compose. apply list_fmap_ext. intros i r _. simpl.
  destruct (same_key r (set_participants ps a)) eqn:Ka;
    destruct (same_key r (set_participants qs b)) eqn:Kb; simpl;
    rewrite ?Ka, ?Kb; try done.
  - apply same_key_spec in Ka as (k & Hr & Hka).
    apply same_key_spec in Kb as (k' & Hr' & Hkb). simpl in *.
    assert (k' = k) as -> by congruence.
    exfalso. apply Hne. by rewrite (stored_key_unique st a b k).
  - replace (same_key (set_participants ps r) (set_participants qs b))
      with (same_key r (set_participants qs b)) by done.
    by rewrite Kb.
  - replace (same_key (set_participants qs r) (set_participants ps a))
      with (same_key r (set_participants ps a)) by done.
    by rewrite Ka.
Qed.

(** X13: signups and unregistrations for two different activity names do
    not interfere. Served in either order they leave the same table, and the
    rows that a lookup by the second name finds are the same before and after
    the request for the first, so the answer to each request does not depend
    on the order. *)
Theorem requests_for_different_names_commute (st : table) (r1 r2 : request)
    (n1 n2 : string) :
  store_ok st → target r1 = Some n1 → target r2 = Some n2 → n1 ≠ n2 →
  serve (serve st r1) r2 = serve (serve st r2) r1 ∧
  select_where_name n2 (serve st r1) = select_where_name n2 st ∧
  select_where_name n1 (serve st r2) = select_where_name n1 st.
Proof.
  intros Hok H1 H2 Hne.
  assert (select_where_name n2 (serve st r1) = select_where_name n2 st) as E2
    by (by eapply select_other_name_serve).
  assert (select_where_name n1 (serve st r2) = select_where_name n1 st) as E1
    by (by eapply select_other_name_serve).
  split; [|done].
  rewrite (serve_by_row r2 n2 (serve st r1) H2), E2.
  rewrite (serve_by_row r1 n1 (serve st r2) H1), E1.
  rewrite (serve_by_row r1 n1 st H1), (serve_by_row r2 n2 st H2).
  destruct (first (select_where_name n1 st)) as [a|] eqn:Ea;
    destruct (first (select_where_name n2 st)) as [b|] eqn:Eb; try done.
  destruct (new_participants r1 a) as [ps|];
    destruct (new_participants r2 b) as [qs|]; try done.
  apply first_select_elem in Ea as [Ha <-].
    apply first_select_elem in Eb as [Hb <-].
    by apply session_commit_comm.
Qed.

Lemma requests_for_different_names_commute_witness :
  serve (serve seeded (PostSignup "Chess Club" "new@mergington.edu"))
        (DeleteUnregister "Gym Class" "john@mergington.edu") =
  serve (serve seeded (DeleteUnregister "Gym Class" "john@mergington.edu"))
        (PostSignup "Chess Club" "new@mergington.edu").
Proof.
  apply (requests_for_different_names_commute seeded
           (PostSignup "Chess Club" "new@mergington.edu")
           (DeleteUnregister "Gym Class" "john@mergington.edu")
           "Chess Club" "Gym Class").
  - exact seeded_ok.
  - reflexivity.
  - reflexivity.
  - by_evaluation.
Defined.

(** ** Two rows of one name *)

(** The schema indexes [name] without making it unique. *)
Lemma select_absent (n : string) (st : table) :
  n ∉ name <$> st → select_where_name n st = [].
Proof.
  intros Hn. unfold select_where_name.
  induction st as [|r st IH]; [done|].
  rewrite fmap_cons, not_elem_of_cons in Hn. destruct Hn as [Hne Hn].
  rewrite filter_cons, decide_False by done. by apply IH.
Qed.

(** X14: in a table with a primary key where two rows carry the name [n],
    signup loads and rewrites the first of them while the listing shows the
    last: the signup succeeds, the first row gets the email, and the entry of
    [n] in the listing is the same as before. *)
Theorem duplicate_name_signup_not_listed (pre mid post : table) (A B : Activity)
    (n e : string) :
  Forall (λ r, is_Some (id r)) (pre ++ A :: mid ++ B :: post) →
  NoDup (id <$> pre ++ A :: mid ++ B :: post) →
  name A = n → name B = n → n ∉ name <$> pre → n ∉ name <$> post →
  e ∉ participants A →
  signup_for_activity n e (pre ++ A :: mid ++ B :: post) =
    (pre ++ set_participants (participants A ++ [e]) A :: mid ++ B :: post,
     Return ("Signed up " +:+ e +:+ " for " +:+ n)) ∧
  get_activities
    (pre ++ set_participants (participants A ++ [e]) A :: mid ++ B :: post) !! n =
    Some (details_of B) ∧
  get_activities (pre ++ A :: mid ++ B :: post) !! n = Some (details_of B).
Proof.
  intros Hkeys Hids HA HB Hpre Hpost He.
  assert (∀ X : Activity, name X = n →
            last (select_where_name n (pre ++ X :: mid ++ B :: post)) = Some B) as Hlast.
  { intros X HX. unfold select_where_name.
    rewrite filter_app, filter_cons, decide_True by done.
    rewrite filter_app, filter_cons, decide_True by done.
    fold (select_where_name n post). rewrite (select_absent n post Hpost).
    rewrite app_comm_cons, app_assoc. apply last_snoc. }
  split_and!.
  - unfold signup_for_activity, select_where_name.
    rewrite filter_app, filter_cons, decide_True by done.
    fold (select_where_name n pre). rewrite (select_absent n pre Hpre). simpl.
    apply py_in_false in He. rewrite He, py_list_or_empty_id. f_equal.
    rewrite (session_commit_insert_keys _ (length pre) A _ Hkeys Hids).
    + unfold py_append. rewrite insert_app_r_alt by done.
      by rewrite Nat.sub_diag.
    + by rewrite list_lookup_middle.
  - rewrite get_activities_lookup.
    by rewrite (Hlast (set_participants (participants A ++ [e]) A) HA).
  - rewrite get_activities_lookup. by rewrite (Hlast A HA).
Qed.

Lemma duplicate_name_signup_not_listed_witness :
  signup_for_activity "Chess Club" "x@y.z"
    ([] ++ mkActivity (Some 1%Z) "Chess Club" None None None []
        :: [] ++ mkActivity (Some 2%Z) "Chess Club" None None (Some 5%Z) ["a@b.c"]
        :: []) =
    ([] ++ mkActivity (Some 1%Z) "Chess Club" None None None ["x@y.z"]
        :: [] ++ mkActivity (Some 2%Z) "Chess Club" None None (Some 5%Z) ["a@b.c"]
        :: [],
     Return "Signed up x@y.z for Chess Club") ∧
  get_activities
    ([] ++ mkActivity (Some 1%Z) "Chess Club" None None None ["x@y.z"]
        :: [] ++ mkActivity (Some 2%Z) "Chess Club" None None (Some 5%Z) ["a@b.c"]
        :: []) !! "Chess Club" =
    Some (mkDetails None None (Some 5%Z) ["a@b.c"]) ∧
  get_activities
    ([] ++ mkActivity (Some 1%Z) "Chess Club" None None None []
        :: [] ++ mkActivity (Some 2%Z) "Chess Club" None None (Some 5%Z) ["a@b.c"]
        :: []) !! "Chess Club" =
    Some (mkDetails None None (Some 5%Z) ["a@b.c"]).
Proof.
  apply (duplicate_name_signup_not_listed [] [] []
           (mkActivity (Some 1%Z) "Chess Club" None None None [])
           (mkActivity (Some 2%Z) "Chess Club" None None (Some 5%Z) ["a@b.c"])
           "Chess Club" "x@y.z").
  - by_evaluation.
  - by_evaluation.
  - reflexivity.
  - reflexivity.
  - by_evaluation.
  - by_evaluation.
  - by_evaluation.
Defined.
